(** * Matrix addition on WebGPU

    A shallow embedding of [matrix_addition.js]: the script's constants, its
    WGSL compute shader, and [init], the function that uploads two matrices,
    dispatches the shader and reads the sum back.  The WebGPU calls the script
    makes are modelled as operations of a state and exception monad over the
    device memory, the console and the page; the shader is modelled as a
    function run once per lane. *)

From Stdlib Require Import NArith ZArith Floats.SpecFloat.
From stdpp Require Import base numbers option list strings.

Local Open Scope N_scope.

(** ** 32-bit floats

    The elements of a [Float32Array] and of a WGSL [array<f32>] are IEEE-754
    binary32 numbers: 24 bits of precision, exponents below 128. *)

Module F32.
Definition prec : Z := 24.
Definition emax : Z := 128.

Definition add (x y : spec_float) : spec_float := SFadd prec emax x y.
Definition of_Z (z : Z) : spec_float := binary_normalize prec emax z 0 false.
Definition zero : spec_float := S754_zero false.
End F32.

Abbreviation f32 := spec_float.

(** ** Time stamps

    [performance.now()] returns a JavaScript number, an IEEE-754 binary64. *)

Module F64.
Definition prec : Z := 53.
Definition emax : Z := 1024.

Definition sub (x y : spec_float) : spec_float := SFsub prec emax x y.
Definition of_Z (z : Z) : spec_float := binary_normalize prec emax z 0 false.
End F64.

Abbreviation f64 := spec_float.

(** ** Typed arrays

    A [Float32Array] is the list of its elements.  An [ArrayBuffer] holding
    32-bit floats is kept as the list of those floats as well: every byte
    offset and byte size of the script is a multiple of four, so the model
    converts bytes to elements with [elems] and never splits a float. *)

Abbreviation Float32Array := (list f32).

Definition BYTES_PER_ELEMENT : N := 4.

(** [new Float32Array(n)]: [n] elements, all zero. *)
Definition new_Float32Array (n : N) : Float32Array :=
  replicate (N.to_nat n) F32.zero.

(** [a.byteLength] *)
Definition byteLength (a : Float32Array) : N :=
  BYTES_PER_ELEMENT * N.of_nat (length a).

(** [a.map(f)], where the callback receives the element and its index. *)
Definition map_indexed (f : f32 → nat → f32) (a : Float32Array) : Float32Array :=
  imap (λ i x, f x i) a.

(** Number of 32-bit elements in a run of [bytes] bytes. *)
Definition elems (bytes : N) : nat := N.to_nat (bytes / BYTES_PER_ELEMENT).

(** [a[i]] for a host or device array indexed by an unsigned integer. *)
Definition at_index (a : list f32) (i : N) : option f32 := a !! N.to_nat i.

(** ** The shader, one lane at a time *)

(** What a single invocation of the entry point does. *)
Inductive Lane :=
| Returned                       (* left through the early [return] *)
| Stored (i : N) (v : f32)       (* executed [output[i] = v] inside the arrays *)
| OutOfBounds (i : N).           (* reached the assignment with [i] outside an array *)

Definition Kernel : Type := N → list f32 → list f32 → list f32 → Lane.

Record Shader := {
  workgroup_size : N;            (* [@workgroup_size(64)] *)
  entry_point : string;          (* the name of the [@compute] function *)
  body : Kernel                  (* that function, applied to [global_id.x] and the bindings *)
}.

(** The effect of one lane on the output array.  WGSL leaves the effect of
    an access outside an array to the implementation; here a lane that
    reaches the assignment with such an index leaves the arrays as they are.
    No lane the program dispatches is in that case. *)
Definition run_lane (k : Kernel) (input1 input2 output : list f32) (gid : N) : list f32 :=
  match k gid input1 input2 output with
  | Stored i v => <[N.to_nat i := v]> output
  | Returned | OutOfBounds _ => output
  end.

(** The lanes of a dispatch, run in the order [order]. *)
Definition run_lanes (k : Kernel) (input1 input2 : list f32) (order : list N)
    (output : list f32) : list f32 :=
  foldl (run_lane k input1 input2) output order.

(** The global invocation ids of [n] lanes: [0 .. n-1]. *)
Definition lanes (n : N) : list N := N.of_nat <$> seq 0 (N.to_nat n).

(** ** Device objects *)

Module GPUBufferUsage.
Definition MAP_READ : N := 1.
Definition MAP_WRITE : N := 2.
Definition COPY_SRC : N := 4.
Definition COPY_DST : N := 8.
Definition STORAGE : N := 128.
End GPUBufferUsage.

(** [usage & flag] is not zero. *)
Definition has_usage (usage flag : N) : bool := negb (N.land usage flag =? 0).

(** A device buffer: its byte size, its usage flags, its contents (created
    zeroed) and, while it is mapped, the mapped byte range. *)
Record GPUBuffer := {
  buf_size : N;
  buf_usage : N;
  buf_data : list f32;
  buf_mapped : option (N * N)
}.

Definition with_data (b : GPUBuffer) (d : list f32) : GPUBuffer :=
  {| buf_size := buf_size b; buf_usage := buf_usage b; buf_data := d;
     buf_mapped := buf_mapped b |}.

Definition with_mapped (b : GPUBuffer) (m : option (N * N)) : GPUBuffer :=
  {| buf_size := buf_size b; buf_usage := buf_usage b; buf_data := buf_data b;
     buf_mapped := m |}.

(** A buffer may be used by a queue operation when it carries the usage flag
    the operation asks for and is not mapped. *)
Definition usable (b : GPUBuffer) (flag : N) : bool :=
  has_usage (buf_usage b) flag && bool_decide (buf_mapped b = None).

Inductive BufferBindingType := read_only_storage | storage.

Global Instance BufferBindingType_eq_dec : EqDecision BufferBindingType.
Proof. solve_decision. Defined.

(** A bind group layout lists (binding, buffer type); every entry of the
    script has visibility [GPUShaderStage.COMPUTE]. *)
Abbreviation GPUBindGroupLayout := (list (N * BufferBindingType)).

(** A bind group: its layout and, per binding, the handle of the bound buffer. *)
Record GPUBindGroup := {
  bg_layout : GPUBindGroupLayout;
  bg_entries : list (N * nat)
}.

Record GPUComputePipeline := {
  bindGroupLayouts : list GPUBindGroupLayout;
  module : Shader;
  entryPoint : string
}.

(** The resource bound at [binding]: the first entry with that number. *)
Fixpoint resource (binding : N) (entries : list (N * nat)) : option nat :=
  match entries with
  | [] => None
  | (b, h) :: rest => if b =? binding then Some h else resource binding rest
  end.

(** Commands recorded by a compute pass encoder and by a command encoder. *)
Inductive PassCommand :=
| SetPipeline (p : GPUComputePipeline)
| SetBindGroup (index : N) (g : GPUBindGroup)
| DispatchWorkgroups (x : N).

Inductive Command :=
| ComputePass (cs : list PassCommand)
| CopyBufferToBuffer (src : nat) (srcOffset : N) (dst : nat) (dstOffset size : N).

(** The WebGPU calls of the script, as they appear in the call trace. *)
Module Call.
Inductive t :=
| requestAdapter
| requestAdapterInfo
| requestDevice
| createShaderModule
| createBuffer (size usage : N)
| writeBuffer (buffer : nat) (bufferOffset dataOffset size : N)
| createBindGroupLayout
| createBindGroup
| createPipelineLayout
| createComputePipeline
| createCommandEncoder
| beginComputePass
| setPipeline
| setBindGroup (index : N)
| dispatchWorkgroups (x : N)
| end_
| copyBufferToBuffer (src : nat) (srcOffset : N) (dst : nat) (dstOffset size : N)
| finish
| submit
| mapAsync (buffer : nat) (offset size : N)
| getMappedRange (buffer : nat) (offset size : N)
| unmap (buffer : nat).
End Call.

(** The calls that record commands, close the recording or submit it. *)
Definition records_or_submits (c : Call.t) : bool :=
  match c with
  | Call.beginComputePass | Call.setPipeline | Call.setBindGroup _
  | Call.dispatchWorkgroups _ | Call.end_ | Call.copyBufferToBuffer _ _ _ _ _
  | Call.finish | Call.submit => true
  | _ => false
  end.

(** ** The world the script runs in *)

(** [GPUAdapterInfo]: the two fields the script reads. *)
Record GPUAdapterInfo := {
  vendor : string;
  architecture : string
}.

(** When the promise of [requestAdapterInfo] is fulfilled, as [init] sees
    it: while [init] waits for the device, while it waits for the mapping,
    when [init] is over, or never (the promise is rejected or stays
    pending).  A callback runs only while [init] is suspended or over. *)
Inductive Fulfilled := WhileDeviceRequested | WhileMapping | AfterInit | Never.

Definition same_point (a b : Fulfilled) : bool :=
  match a, b with
  | WhileDeviceRequested, WhileDeviceRequested | WhileMapping, WhileMapping
  | AfterInit, AfterInit | Never, Never => true
  | _, _ => false
  end.

(** What the script cannot decide: whether the browser has WebGPU, whether an
    adapter and a device are handed out, whether the adapter has the method
    [requestAdapterInfo], what it reports and when, whether the mapping
    succeeds, in which order the device runs the lanes of a dispatch, and
    what the clock shows at each reading. *)
Record Env := {
  navigator_gpu : bool;
  adapter_available : bool;
  requestAdapterInfo_defined : bool;
  adapter_info : GPUAdapterInfo;
  info_fulfilled : Fulfilled;
  device_available : bool;
  map_succeeds : bool;
  lane_order : list N → list N;
  now : nat → f64
}.

(** Every lane of a dispatch runs exactly once. *)
Definition fair (env : Env) : Prop := ∀ l, lane_order env l ≡ₚ l.

(** The script gets a device. *)
Definition acquired (env : Env) : bool :=
  navigator_gpu env && adapter_available env && requestAdapterInfo_defined env
  && device_available env.

(** What the script passes to [console.log]. *)
Inductive Logged :=
| LogArray (a : Float32Array)          (* [console.log(new Float32Array(data))] *)
| LogAdapterInfo (info : GPUAdapterInfo) (* [console.log(info)] *)
| LogDevice.                           (* [console.log(device)] *)

(** The arrays among the logged values, in order. *)
Fixpoint arrays (l : list Logged) : list Float32Array :=
  match l with
  | [] => []
  | LogArray a :: rest => a :: arrays rest
  | _ :: rest => arrays rest
  end.

(** An argument of [document.write]. *)
Inductive Written :=
| Text (s : string)
| Number (x : f64).

Record World := {
  memory : list GPUBuffer;               (* device buffers; a handle is a position *)
  recording : list Command;              (* the command encoder *)
  pass : list PassCommand;               (* the compute pass encoder *)
  submitted : list (list Command);       (* command buffers given to the queue *)
  calls : list Call.t;                   (* WebGPU calls so far, oldest first *)
  console : list Logged;                 (* values given to [console.log] *)
  document : list (list Written);        (* arguments of each [document.write] *)
  clock : nat                            (* readings of [performance.now] so far *)
}.

Definition empty_world : World :=
  {| memory := []; recording := []; pass := []; submitted := []; calls := [];
     console := []; document := []; clock := 0 |}.

Definition set_memory (m : list GPUBuffer) (w : World) : World :=
  {| memory := m; recording := recording w; pass := pass w;
     submitted := submitted w; calls := calls w; console := console w;
     document := document w; clock := clock w |}.

Definition set_recording (r : list Command) (w : World) : World :=
  {| memory := memory w; recording := r; pass := pass w;
     submitted := submitted w; calls := calls w; console := console w;
     document := document w; clock := clock w |}.

Definition set_pass (p : list PassCommand) (w : World) : World :=
  {| memory := memory w; recording := recording w; pass := p;
     submitted := submitted w; calls := calls w; console := console w;
     document := document w; clock := clock w |}.

Definition set_submitted (s : list (list Command)) (w : World) : World :=
  {| memory := memory w; recording := recording w; pass := pass w;
     submitted := s; calls := calls w; console := console w;
     document := document w; clock := clock w |}.

Definition add_call (c : Call.t) (w : World) : World :=
  {| memory := memory w; recording := recording w; pass := pass w;
     submitted := submitted w; calls := calls w ++ [c]; console := console w;
     document := document w; clock := clock w |}.

Definition add_console (x : Logged) (w : World) : World :=
  {| memory := memory w; recording := recording w; pass := pass w;
     submitted := submitted w; calls := calls w; console := console w ++ [x];
     document := document w; clock := clock w |}.

Definition add_document (args : list Written) (w : World) : World :=
  {| memory := memory w; recording := recording w; pass := pass w;
     submitted := submitted w; calls := calls w; console := console w;
     document := document w ++ [args]; clock := clock w |}.

Definition tick (w : World) : World :=
  {| memory := memory w; recording := recording w; pass := pass w;
     submitted := submitted w; calls := calls w; console := console w;
     document := document w; clock := S (clock w) |}.

(** ** Exceptions and the script monad *)

Inductive JsError :=
| Error (message : string)        (* [throw Error(message)] *)
| TypeError (message : string)    (* a call of something that is no function *)
| Rejected (call : string)        (* the promise returned by [call] rejected *)
| OperationError (call : string). (* [call] threw on its arguments *)

Inductive Outcome (A : Type) :=
| Done (a : A) (w : World)
| Thrown (e : JsError) (w : World).
Arguments Done {A} a w.
Arguments Thrown {A} e w.

Definition world_of {A} (o : Outcome A) : World :=
  match o with Done _ w | Thrown _ w => w end.

Definition M (A : Type) : Type := World → Outcome A.

Global Instance M_ret : MRet M := λ A a w, Done a w.
Global Instance M_bind : MBind M := λ A B k m w,
  match m w with
  | Done a w' => k a w'
  | Thrown e w' => Thrown e w'
  end.

Definition throw {A} (e : JsError) : M A := λ w, Thrown e w.
Definition modify (f : World → World) : M unit := λ w, Done tt (f w).
Definition gets {A} (f : World → A) : M A := λ w, Done (f w) w.
Definition call (c : Call.t) : M unit := modify (add_call c).

(** [if (c) { throw e }] *)
Definition throw_if (c : bool) (e : JsError) : M unit :=
  if c then throw e else mret tt.

(** ** The queue: what recorded commands do to device memory *)

(** [dst] with the elements from position [pos] on overwritten by [src]. *)
Definition splice (dst : list f32) (pos : nat) (src : list f32) : list f32 :=
  take pos dst ++ src ++ drop (pos + length src) dst.

Definition maxComputeWorkgroupsPerDimension : N := 65535.

Section Queue.
Variable env : Env.

(** A dispatch of [x] workgroups.  The shader declares three storage
    bindings in group 0: [input1] at 0, [input2] at 1 and [output] at 2.  The
    dispatch is valid when the pipeline's entry point exists, its layout is
    the bind group's, the three buffers exist, carry STORAGE and are not
    mapped, and the written buffer is not also read.  It then runs
    [x * workgroup_size] lanes, in the order the device picks. *)
Definition exec_dispatch (p : GPUComputePipeline) (g : GPUBindGroup) (x : N)
    (mem : list GPUBuffer) : option (list GPUBuffer) :=
  h1 ← resource 0 (bg_entries g);
  h2 ← resource 1 (bg_entries g);
  h3 ← resource 2 (bg_entries g);
  b1 ← mem !! h1;
  b2 ← mem !! h2;
  b3 ← mem !! h3;
  if bool_decide (entryPoint p = entry_point (module p))
     && bool_decide (bindGroupLayouts p = [bg_layout g])
     && (x <=? maxComputeWorkgroupsPerDimension)
     && usable b1 GPUBufferUsage.STORAGE
     && usable b2 GPUBufferUsage.STORAGE
     && usable b3 GPUBufferUsage.STORAGE
     && bool_decide (h3 ≠ h1) && bool_decide (h3 ≠ h2)
  then
    let order := lane_order env (lanes (x * workgroup_size (module p))) in
    Some (<[h3 := with_data b3
                    (run_lanes (body (module p)) (buf_data b1) (buf_data b2)
                               order (buf_data b3))]> mem)
  else None.

(** The commands of a compute pass, in recorded order, with the pipeline and
    the bind group of group 0 set so far. *)
Fixpoint exec_pass (cs : list PassCommand) (p : option GPUComputePipeline)
    (g : option GPUBindGroup) (mem : list GPUBuffer) : option (list GPUBuffer) :=
  match cs with
  | [] => Some mem
  | SetPipeline p' :: cs' => exec_pass cs' (Some p') g mem
  | SetBindGroup index g' :: cs' =>
      exec_pass cs' p (if index =? 0 then Some g' else g) mem
  | DispatchWorkgroups x :: cs' =>
      match p, g with
      | Some p', Some g' => mem' ← exec_dispatch p' g' x mem; exec_pass cs' p g mem'
      | _, _ => None
      end
  end.

(** A buffer-to-buffer copy of [size] bytes. *)
Definition exec_copy (src : nat) (srcOffset : N) (dst : nat) (dstOffset size : N)
    (mem : list GPUBuffer) : option (list GPUBuffer) :=
  s ← mem !! src;
  d ← mem !! dst;
  if bool_decide (src ≠ dst)
     && usable s GPUBufferUsage.COPY_SRC && usable d GPUBufferUsage.COPY_DST
     && (size mod 4 =? 0) && (srcOffset mod 4 =? 0) && (dstOffset mod 4 =? 0)
     && (srcOffset + size <=? buf_size s) && (dstOffset + size <=? buf_size d)
  then
    Some (<[dst := with_data d
                     (splice (buf_data d) (elems dstOffset)
                             (take (elems size) (drop (elems srcOffset) (buf_data s))))]> mem)
  else None.

Definition exec_command (c : Command) (mem : list GPUBuffer) : option (list GPUBuffer) :=
  match c with
  | ComputePass cs => exec_pass cs None None mem
  | CopyBufferToBuffer src so dst do size => exec_copy src so dst do size mem
  end.

(** The commands of one command buffer, in recorded order. *)
Fixpoint exec_commands (cs : list Command) (mem : list GPUBuffer) : option (list GPUBuffer) :=
  match cs with
  | [] => Some mem
  | c :: cs' => mem' ← exec_command c mem; exec_commands cs' mem'
  end.

(** A command buffer with an invalid command is dropped as a whole. *)
Definition exec_buffer (mem : list GPUBuffer) (cb : list Command) : list GPUBuffer :=
  default mem (exec_commands cb mem).

End Queue.

(** The dispatch grid of a pass: per dispatch, the number of workgroups and
    the lanes in each, under the pipeline set by then. *)
Fixpoint pass_grid (cs : list PassCommand) (p : option GPUComputePipeline)
    : list (N * N) :=
  match cs with
  | [] => []
  | SetPipeline p' :: cs' => pass_grid cs' (Some p')
  | SetBindGroup _ _ :: cs' => pass_grid cs' p
  | DispatchWorkgroups x :: cs' =>
      match p with
      | Some p' => (x, workgroup_size (module p')) :: pass_grid cs' p
      | None => pass_grid cs' p
      end
  end.

Definition command_grid (c : Command) : list (N * N) :=
  match c with
  | ComputePass cs => pass_grid cs None
  | CopyBufferToBuffer _ _ _ _ _ => []
  end.

(** The dispatches of everything the queue was given. *)
Definition grids (w : World) : list (N * N) :=
  mjoin (command_grid <$> mjoin (submitted w)).

(** The global ids of the lanes the device runs for the dispatches of [w]. *)
Definition executed_lanes (w : World) : list N :=
  mjoin ((λ g, lanes (g.1 * g.2)) <$> grids w).

(** ** The WebGPU calls of the script *)

Module GPUMapMode.
Definition READ : N := 1.
Definition WRITE : N := 2.
End GPUMapMode.

Section Api.
Variable env : Env.

(** [performance.now()]: the next reading of the clock. *)
Definition performance_now : M f64 :=
  t ← gets (λ w, now env (clock w));
  modify tick;;
  mret t.

(** [navigator.gpu.requestAdapter()]: [false] stands for [null]. *)
Definition requestAdapter : M bool :=
  call Call.requestAdapter;;
  mret (adapter_available env).

(** [adapter.requestAdapterInfo()]: the promise of the adapter's
    information.  On an adapter without the method the call is a
    [TypeError]. *)
Definition requestAdapterInfo : M unit :=
  if requestAdapterInfo_defined env then call Call.requestAdapterInfo
  else throw (TypeError "adapter.requestAdapterInfo is not a function").

(** [adapter.requestDevice()] *)
Definition requestDevice : M unit :=
  call Call.requestDevice;;
  if device_available env then mret tt else throw (Rejected "requestDevice").

Definition createShaderModule (code : Shader) : M Shader :=
  call Call.createShaderModule;;
  mret code.

(** [device.createBuffer({size, usage})]: a new zeroed buffer; its handle is
    its position in the device's buffer table. *)
Definition createBuffer (size usage : N) : M nat :=
  call (Call.createBuffer size usage);;
  h ← gets (λ w, length (memory w));
  modify (λ w, set_memory
    (memory w ++ [{| buf_size := size; buf_usage := usage;
                     buf_data := replicate (elems size) F32.zero;
                     buf_mapped := None |}]) w);;
  mret h.

(** [device.queue.writeBuffer(buffer, bufferOffset, data, dataOffset, size)]
    with a typed array: [dataOffset] and [size] count elements.  A range
    outside [data] throws; a write the buffer cannot take is a validation
    error and writes nothing. *)
Definition writeBuffer (buffer : nat) (bufferOffset : N) (data : Float32Array)
    (dataOffset size : N) : M unit :=
  call (Call.writeBuffer buffer bufferOffset dataOffset size);;
  if bool_decide (N.to_nat dataOffset + N.to_nat size ≤ length data)%nat then
    modify (λ w,
      match memory w !! buffer with
      | Some b =>
          if usable b GPUBufferUsage.COPY_DST
             && (bufferOffset mod 4 =? 0)
             && (bufferOffset + BYTES_PER_ELEMENT * size <=? buf_size b)
          then set_memory
                 (<[buffer := with_data b
                      (splice (buf_data b) (elems bufferOffset)
                         (take (N.to_nat size) (drop (N.to_nat dataOffset) data)))]>
                    (memory w)) w
          else w
      | None => w
      end)
  else throw (OperationError "writeBuffer").

Definition createBindGroupLayout (entries : GPUBindGroupLayout) : M GPUBindGroupLayout :=
  call Call.createBindGroupLayout;;
  mret entries.

Definition createBindGroup (layout : GPUBindGroupLayout) (entries : list (N * nat))
    : M GPUBindGroup :=
  call Call.createBindGroup;;
  mret {| bg_layout := layout; bg_entries := entries |}.

Definition createPipelineLayout (layouts : list GPUBindGroupLayout)
    : M (list GPUBindGroupLayout) :=
  call Call.createPipelineLayout;;
  mret layouts.

Definition createComputePipeline (layout : list GPUBindGroupLayout) (m : Shader)
    (entry : string) : M GPUComputePipeline :=
  call Call.createComputePipeline;;
  mret {| bindGroupLayouts := layout; module := m; entryPoint := entry |}.

Definition createCommandEncoder : M unit :=
  call Call.createCommandEncoder;;
  modify (set_recording []).

Definition beginComputePass : M unit :=
  call Call.beginComputePass;;
  modify (set_pass []).

Definition setPipeline (p : GPUComputePipeline) : M unit :=
  call Call.setPipeline;;
  modify (λ w, set_pass (pass w ++ [SetPipeline p]) w).

Definition setBindGroup (index : N) (g : GPUBindGroup) : M unit :=
  call (Call.setBindGroup index);;
  modify (λ w, set_pass (pass w ++ [SetBindGroup index g]) w).

Definition dispatchWorkgroups (x : N) : M unit :=
  call (Call.dispatchWorkgroups x);;
  modify (λ w, set_pass (pass w ++ [DispatchWorkgroups x]) w).

(** [passEncoder.end()]: the pass becomes one command of the encoder. *)
Definition end_ : M unit :=
  call Call.end_;;
  modify (λ w, set_recording (recording w ++ [ComputePass (pass w)]) w).

Definition copyBufferToBuffer (src : nat) (srcOffset : N) (dst : nat)
    (dstOffset size : N) : M unit :=
  call (Call.copyBufferToBuffer src srcOffset dst dstOffset size);;
  modify (λ w, set_recording
    (recording w ++ [CopyBufferToBuffer src srcOffset dst dstOffset size]) w).

(** [commandEncoder.finish()]: the command buffer. *)
Definition finish : M (list Command) :=
  call Call.finish;;
  gets recording.

(** [device.queue.submit(buffers)].  The host sees device memory only through
    a mapping, which waits for the queue; the model runs the commands here. *)
Definition submit (buffers : list (list Command)) : M unit :=
  call Call.submit;;
  modify (λ w, set_submitted (submitted w ++ buffers)
                 (set_memory (foldl (exec_buffer env) (memory w) buffers) w)).

(** [await buffer.mapAsync(mode, offset, size)] *)
Definition mapAsync (buffer : nat) (mode offset size : N) : M unit :=
  call (Call.mapAsync buffer offset size);;
  w ← gets id;
  match memory w !! buffer with
  | Some b =>
      if map_succeeds env
         && usable b (if mode =? GPUMapMode.READ then GPUBufferUsage.MAP_READ
                      else GPUBufferUsage.MAP_WRITE)
         && (offset mod 8 =? 0) && (size mod 4 =? 0)
         && (offset + size <=? buf_size b)
      then modify (set_memory
             (<[buffer := with_mapped b (Some (offset, size))]> (memory w)))
      else throw (Rejected "mapAsync")
  | None => throw (Rejected "mapAsync")
  end.

(** [buffer.getMappedRange(offset, size)]: the mapped bytes. *)
Definition getMappedRange (buffer : nat) (offset size : N) : M (list f32) :=
  call (Call.getMappedRange buffer offset size);;
  w ← gets id;
  match memory w !! buffer with
  | Some {| buf_mapped := Some (o, s); buf_data := d |} =>
      if (o <=? offset) && (offset + size <=? o + s)
         && (offset mod 8 =? 0) && (size mod 4 =? 0)
      then mret (take (elems size) (drop (elems offset) d))
      else throw (OperationError "getMappedRange")
  | _ => throw (OperationError "getMappedRange")
  end.

(** [arrayBuffer.slice()]: a copy, which no later [unmap] can detach. *)
Definition slice (a : list f32) : list f32 := a.

Definition unmap (buffer : nat) : M unit :=
  call (Call.unmap buffer);;
  modify (λ w,
    match memory w !! buffer with
    | Some b => set_memory (<[buffer := with_mapped b None]> (memory w)) w
    | None => w
    end).

(** [new Float32Array(buffer)]: the floats of an [ArrayBuffer]. *)
Definition Float32Array_of (buffer : list f32) : Float32Array := buffer.

(** [console.log(x)] *)
Definition console_log (x : Logged) : M unit := modify (add_console x).

(** [document.write(...args)] *)
Definition document_write (args : list Written) : M unit :=
  modify (add_document args).

End Api.

(** ** The script, for matrices of [rows] by [cols] elements

    [matrix_addition.js] fixes both constants to 5000; they are parameters
    here so that the same text can also be run on small matrices. *)

Module Script.
Section Script.
Variables rows cols : N.
Variable env : Env.

(** [const BUFFER_SIZE = new Float32Array(rows*cols).byteLength] *)
Definition BUFFER_SIZE : N := byteLength (new_Float32Array (rows * cols)).

(** The entry point [main] of the shader, for the lane whose
    [global_id.x] is [global_id_x]; [BUFFER_SIZE] is spliced into the text. *)
Definition main (global_id_x : N) (input1 input2 output : list f32) : Lane :=
  if BUFFER_SIZE <=? global_id_x then Returned
  else
    match at_index input1 global_id_x, at_index input2 global_id_x,
          at_index output global_id_x with
    | Some x, Some y, Some _ => Stored global_id_x (F32.add x y)
    | _, _, _ => OutOfBounds global_id_x
    end.

Definition shader : Shader :=
  {| workgroup_size := 64; entry_point := "main"; body := main |}.

(** [const matrixA = new Float32Array(rows*cols).map((_,i) => 1)] *)
Definition matrixA : Float32Array :=
  map_indexed (λ _ i, F32.of_Z 1) (new_Float32Array (rows * cols)).

(** [const matrixB = new Float32Array(rows*cols).map((_,i) => 2)] *)
Definition matrixB : Float32Array :=
  map_indexed (λ _ i, F32.of_Z 2) (new_Float32Array (rows * cols)).

(** The callback of line 47, given to [then] on the promise of
    [requestAdapterInfo]. *)
Definition show_adapter_info (info : GPUAdapterInfo) : M unit :=
  console_log (LogAdapterInfo info);;
  document_write [Text "<h2>Adapter Info</h2>"];;
  document_write [Text ("<pre>vendor: " +:+ vendor info +:+ EmptyString)];;
  document_write [Text ("<pre>architecture: " +:+ architecture info +:+ "</pre>")].

(** [await m] at the suspension point [point] of [init]: the callback runs
    here when the promise of [requestAdapterInfo] is fulfilled meanwhile,
    before [init] goes on with the outcome of [m]. *)
Definition await {A} (point : Fulfilled) (m : M A) : M A :=
  (if same_point (info_fulfilled env) point
   then show_adapter_info (adapter_info env) else mret tt);;
  m.

(** [init], statement by statement.  [requestAdapterInfo env] is line 47,
    [adapter.requestAdapterInfo().then(...)]: it asks for the promise and
    registers [show_adapter_info] on it; the two [await]s that follow are
    where the callback can run.  The first [await] of [init], of
    [requestAdapter], precedes the registration. *)
Definition init : M unit :=
  startTime ← performance_now env;
  throw_if (negb (navigator_gpu env)) (Error "WebGPU not supported.");;
  adapter ← requestAdapter env;
  throw_if (negb adapter) (Error "Couldn't request WebGPU adapter.");;
  requestAdapterInfo env;;
  await WhileDeviceRequested (requestDevice env);;
  shaderModule ← createShaderModule shader;
  input1 ← createBuffer BUFFER_SIZE
              (N.lor GPUBufferUsage.STORAGE GPUBufferUsage.COPY_DST);
  writeBuffer input1 0 matrixA 0 (N.of_nat (length matrixA));;
  input2 ← createBuffer BUFFER_SIZE
              (N.lor GPUBufferUsage.STORAGE GPUBufferUsage.COPY_DST);
  writeBuffer input2 0 matrixB 0 (N.of_nat (length matrixB));;
  output ← createBuffer BUFFER_SIZE
              (N.lor GPUBufferUsage.STORAGE GPUBufferUsage.COPY_SRC);
  stagingBuffer ← createBuffer BUFFER_SIZE
              (N.lor GPUBufferUsage.MAP_READ GPUBufferUsage.COPY_DST);
  bindGroupLayout ← createBindGroupLayout
              [(0, read_only_storage); (1, read_only_storage); (2, storage)];
  bindGroup ← createBindGroup bindGroupLayout
              [(0, input1); (1, input2); (2, output)];
  pipelineLayout ← createPipelineLayout [bindGroupLayout];
  computePipeline ← createComputePipeline pipelineLayout shaderModule "main";
  createCommandEncoder;;
  beginComputePass;;
  setPipeline computePipeline;;
  setBindGroup 0 bindGroup;;
  dispatchWorkgroups 1;;
  end_;;
  copyBufferToBuffer output 0 stagingBuffer 0 BUFFER_SIZE;;
  commands ← finish;
  submit env [commands];;
  await WhileMapping (mapAsync env stagingBuffer GPUMapMode.READ 0 BUFFER_SIZE);;
  copyArrayBuffer ← getMappedRange stagingBuffer 0 BUFFER_SIZE;
  let data := slice copyArrayBuffer in
  unmap stagingBuffer;;
  endTime ← performance_now env;
  console_log (LogArray (Float32Array_of data));;
  let executionTime := F64.sub endTime startTime in
  document_write [Text "Execution time: "; Number executionTime; Text "milliseconds"];;
  console_log LogDevice.

End Script.
End Script.

(** The array the script logs, when it runs to the end. *)
Definition logged (o : Outcome unit) : option Float32Array :=
  match o with
  | Done _ w => last (arrays (console w))
  | Thrown _ _ => None
  end.

(** ** The program *)

Definition rows : N := 5000.
Definition cols : N := 5000.
Definition BUFFER_SIZE : N := Script.BUFFER_SIZE rows cols.
Definition shader : Shader := Script.shader rows cols.
Definition matrixA : Float32Array := Script.matrixA rows cols.
Definition matrixB : Float32Array := Script.matrixB rows cols.
Definition init (env : Env) : M unit := Script.init rows cols env.

(** An adapter's information and a clock, for the environments below. *)
Definition some_info : GPUAdapterInfo :=
  {| vendor := "vendor"; architecture := "architecture" |}.

Definition milliseconds (k : nat) : f64 := F64.of_Z (Z.of_nat k).

(** An environment in which every request is granted, the adapter's
    information arrives while the device is requested, and the lanes run in
    reverse order. *)
Definition granted : Env :=
  {| navigator_gpu := true; adapter_available := true;
     requestAdapterInfo_defined := true; adapter_info := some_info;
     info_fulfilled := WhileDeviceRequested; device_available := true;
     map_succeeds := true; lane_order := reverse; now := milliseconds |}.

(** The same, with the lanes run in the order of their ids and the
    adapter's information arriving when [init] is over. *)
Definition in_order : Env :=
  {| navigator_gpu := true; adapter_available := true;
     requestAdapterInfo_defined := true; adapter_info := some_info;
     info_fulfilled := AfterInit; device_available := true;
     map_succeeds := true; lane_order := id; now := milliseconds |}.

(** A browser without WebGPU. *)
Definition unsupported : Env :=
  {| navigator_gpu := false; adapter_available := false;
     requestAdapterInfo_defined := false; adapter_info := some_info;
     info_fulfilled := Never; device_available := false;
     map_succeeds := false; lane_order := id; now := milliseconds |}.

(** Every request but the mapping is granted. *)
Definition map_rejected : Env :=
  {| navigator_gpu := true; adapter_available := true;
     requestAdapterInfo_defined := true; adapter_info := some_info;
     info_fulfilled := WhileMapping; device_available := true;
     map_succeeds := false; lane_order := id; now := milliseconds |}.

(** ** The page around [init] *)

(** The calls of the mapping protocol of a buffer. *)
Definition maps_or_unmaps (c : Call.t) : bool :=
  match c with
  | Call.mapAsync _ _ _ | Call.getMappedRange _ _ _ | Call.unmap _ => true
  | _ => false
  end.

(** WebGPU's default limit on the byte size of a storage buffer binding. *)
Definition maxStorageBufferBindingSize : N := 134217728.

(** The promise of [requestAdapterInfo] was asked for. *)
Definition info_requested (w : World) : bool :=
  existsb (λ c, match c with Call.requestAdapterInfo => true | _ => false end)
          (calls w).

(** The callback of line 47 has run. *)
Definition info_shown (w : World) : bool :=
  existsb (λ x, match x with LogAdapterInfo _ => true | _ => false end)
          (console w).

(** What the page shows when the script is over: the world, and the errors
    passed to [alert]. *)
Record Page := {
  page_world : World;
  alerts : list JsError
}.

(** The last statement of the script,
    [init().catch((e) => { alert(e) })], and what follows it: a callback
    that is still due runs once [init] is over. *)
Definition script (env : Env) : Page :=
  let o := init env empty_world in
  let w := world_of o in
  {| page_world :=
       if info_requested w && negb (info_shown w)
          && negb (same_point (info_fulfilled env) Never)
       then world_of (Script.show_adapter_info (adapter_info env) w)
       else w;
     alerts := match o with Done _ _ => [] | Thrown e _ => [e] end |}.

(** Unfolds the calls that only extend the trace or the encoders, down to
    the next call that reads device memory. *)
Ltac run :=
  cbv [Script.init Script.await Script.show_adapter_info same_point
       performance_now requestAdapter requestAdapterInfo requestDevice
       createShaderModule createBuffer createBindGroupLayout createBindGroup
       createPipelineLayout createComputePipeline createCommandEncoder
       beginComputePass setPipeline setBindGroup dispatchWorkgroups end_
       copyBufferToBuffer finish submit console_log document_write unmap slice
       Float32Array_of
       mbind M_bind mret M_ret call modify gets throw throw_if negb
       empty_world set_memory set_recording set_pass set_submitted add_call
       add_console add_document tick id
       memory recording pass submitted calls console document clock
       length app insert list_insert lookup list_lookup
       with_data with_mapped buf_size buf_usage buf_data buf_mapped].

(** * Properties *)

(** ** Sizes *)

Lemma BUFFER_SIZE_bytes (r c : N) : Script.BUFFER_SIZE r c = 4 * (r * c).
Proof.
  unfold Script.BUFFER_SIZE, byteLength, new_Float32Array, BYTES_PER_ELEMENT.
  rewrite length_replicate, N2Nat.id. reflexivity.
Qed.

Lemma elems_bytes (n : N) : elems (4 * n) = N.to_nat n.
Proof.
  unfold elems, BYTES_PER_ELEMENT.
  rewrite N.mul_comm, N.div_mul by discriminate. reflexivity.
Qed.

Lemma total_elements : rows * cols = 25000000.
Proof. reflexivity. Qed.

Lemma BUFFER_SIZE_value : BUFFER_SIZE = 100000000.
Proof. unfold BUFFER_SIZE. rewrite BUFFER_SIZE_bytes. reflexivity. Qed.

(** ** Typed arrays *)

Lemma map_indexed_const (v : f32) (n : nat) (z : f32) :
  map_indexed (λ _ _, v) (replicate n z) = replicate n v.
Proof.
  unfold map_indexed. apply list_eq. intros i.
  rewrite list_lookup_imap.
  destruct (decide (i < n)%nat) as [Hi|Hi].
  - rewrite !lookup_replicate_2 by assumption. reflexivity.
  - rewrite !(lookup_ge_None_2 (replicate _ _)) by (rewrite length_replicate; lia).
    reflexivity.
Qed.

Lemma splice_all (dst src : list f32) :
  length dst = length src → splice dst 0 src = src.
Proof.
  intros H. unfold splice. rewrite take_0, drop_ge by lia.
  simpl. apply app_nil_r.
Qed.

Lemma take_drop_all (l : list f32) (n : nat) :
  length l = n → take n (drop 0 l) = l.
Proof. intros H. rewrite drop_0. apply take_ge. lia. Qed.

(** ** The lanes of a dispatch *)

Section Lanes.
Variables r c : N.
Variables input1 input2 : list f32.

Local Abbreviation kernel := (Script.main r c).
Local Abbreviation bound := (Script.BUFFER_SIZE r c).

Lemma run_lane_length (out : list f32) (gid : N) :
  length (run_lane kernel input1 input2 out gid) = length out.
Proof.
  unfold run_lane, Script.main.
  repeat case_match; try reflexivity; apply length_insert.
Qed.

Lemma run_lanes_length (order : list N) (out : list f32) :
  length (run_lanes kernel input1 input2 order out) = length out.
Proof.
  unfold run_lanes. revert out.
  induction order as [|g order IH]; intros out; simpl; [reflexivity|].
  rewrite IH. apply run_lane_length.
Qed.

(** A lane writes at its own index only. *)
Lemma run_lane_other (out : list f32) (gid : N) (i : nat) :
  i ≠ N.to_nat gid →
  run_lane kernel input1 input2 out gid !! i = out !! i.
Proof.
  intros Hne. unfold run_lane, Script.main.
  repeat case_match; try reflexivity; simplify_eq.
  apply list_lookup_insert_ne. congruence.
Qed.

(** What a lane stores at its index is the sum of the inputs there. *)
Lemma run_lane_own (out : list f32) (gid : N) (x y : f32) :
  at_index input1 gid = Some x → at_index input2 gid = Some y →
  gid < bound → (N.to_nat gid < length out)%nat →
  run_lane kernel input1 input2 out gid !! N.to_nat gid = Some (F32.add x y).
Proof.
  intros H1 H2 Hb Hlen. unfold run_lane, Script.main.
  apply N.leb_gt in Hb. rewrite Hb, H1, H2.
  destruct (lookup_lt_is_Some_2 out (N.to_nat gid) Hlen) as [o Ho].
  unfold at_index. rewrite Ho.
  apply list_lookup_insert_eq. assumption.
Qed.

(** A sum, once stored, is not changed by a later lane: the one lane that
    could write there would store the same sum again. *)
Lemma run_lane_keeps (out : list f32) (gid : N) (i : nat) (x y : f32) :
  input1 !! i = Some x → input2 !! i = Some y →
  out !! i = Some (F32.add x y) →
  run_lane kernel input1 input2 out gid !! i = Some (F32.add x y).
Proof.
  intros H1 H2 Ho.
  destruct (decide (i = N.to_nat gid)) as [->|Hne].
  - unfold run_lane, Script.main, at_index.
    rewrite H1, H2, Ho. destruct (_ <=? gid); [assumption|].
    apply list_lookup_insert_eq. apply lookup_lt_Some in Ho. assumption.
  - rewrite run_lane_other by assumption. assumption.
Qed.

Lemma run_lanes_keeps (order : list N) (out : list f32) (i : nat) (x y : f32) :
  input1 !! i = Some x → input2 !! i = Some y →
  out !! i = Some (F32.add x y) →
  run_lanes kernel input1 input2 order out !! i = Some (F32.add x y).
Proof.
  intros H1 H2. unfold run_lanes. revert out.
  induction order as [|g order IH]; intros out Ho; simpl; [assumption|].
  apply IH. apply run_lane_keeps; assumption.
Qed.

(** An index no lane of the dispatch has keeps its old value. *)
Lemma run_lanes_untouched (order : list N) (out : list f32) (i : nat) :
  N.of_nat i ∉ order →
  run_lanes kernel input1 input2 order out !! i = out !! i.
Proof.
  unfold run_lanes. revert out.
  induction order as [|g order IH]; intros out Hni; simpl; [reflexivity|].
  apply not_elem_of_cons in Hni as [Hne Hni].
  rewrite IH by assumption. apply run_lane_other. lia.
Qed.

(** An index some lane of the dispatch has, below the guard's bound and
    inside the arrays, holds the sum of the inputs, in whatever order the
    lanes ran. *)
Lemma run_lanes_written (order : list N) (out : list f32) (gid : N) (x y : f32) :
  gid ∈ order →
  at_index input1 gid = Some x → at_index input2 gid = Some y →
  gid < bound → (N.to_nat gid < length out)%nat →
  run_lanes kernel input1 input2 order out !! N.to_nat gid = Some (F32.add x y).
Proof.
  intros Hin H1 H2 Hb. unfold run_lanes. revert out.
  induction order as [|g order IH]; intros out Hlen; simpl.
  - inversion Hin.
  - destruct (decide (g = gid)) as [->|Hne].
    + apply run_lanes_keeps; [assumption..|].
      apply run_lane_own; assumption.
    + apply elem_of_cons in Hin as [Heq|Hin]; [congruence|].
      apply IH; [assumption|]. rewrite run_lane_length. assumption.
Qed.

End Lanes.

Lemma elem_of_lanes (n gid : N) : gid ∈ lanes n ↔ gid < n.
Proof.
  unfold lanes. rewrite list_elem_of_fmap. split.
  - intros (k & -> & Hk). apply elem_of_seq in Hk. lia.
  - intros H. exists (N.to_nat gid). split; [lia|]. apply elem_of_seq. lia.
Qed.

(** ** The WebGPU calls on whole buffers *)

Lemma mul4_mod4 (n : N) : (4 * n) mod 4 = 0.
Proof. rewrite N.mul_comm. apply N.Div0.mod_mul. Qed.

Lemma writeBuffer_whole (h : nat) (data : Float32Array) (size : N) (w : World)
    (b : GPUBuffer) :
  memory w !! h = Some b →
  usable b GPUBufferUsage.COPY_DST = true →
  size = N.of_nat (length data) →
  buf_size b = 4 * size →
  length (buf_data b) = length data →
  writeBuffer h 0 data 0 size w
  = Done tt (set_memory (<[h := with_data b data]> (memory w))
               (add_call (Call.writeBuffer h 0 0 size) w)).
Proof.
  intros Hm Hu -> Hs Hl. unfold writeBuffer, mbind, M_bind, call, modify.
  rewrite bool_decide_eq_true_2 by lia.
  cbn [memory add_call]. rewrite Hm, Hu, Hs. unfold BYTES_PER_ELEMENT.
  rewrite N.add_0_l, N.leb_refl. cbn [andb N.modulo N.eqb N.div_eucl snd].
  rewrite Nat2N.id, take_drop_all by reflexivity.
  change (elems 0) with 0%nat. rewrite splice_all by assumption.
  reflexivity.
Qed.

Lemma mapAsync_whole (env : Env) (h : nat) (size : N) (w : World) (b : GPUBuffer) :
  map_succeeds env = true →
  memory w !! h = Some b →
  usable b GPUBufferUsage.MAP_READ = true →
  size mod 4 = 0 →
  buf_size b = size →
  mapAsync env h GPUMapMode.READ 0 size w
  = Done tt (set_memory (<[h := with_mapped b (Some (0, size))]> (memory w))
               (add_call (Call.mapAsync h 0 size) w)).
Proof.
  intros He Hm Hu H4 Hs.
  unfold mapAsync, mbind, M_bind, call, modify, gets, id.
  cbn [memory add_call]. rewrite Hm, He.
  change (GPUMapMode.READ =? GPUMapMode.READ) with true. cbv iota.
  rewrite Hu, H4, Hs, N.add_0_l, N.leb_refl. reflexivity.
Qed.

Lemma mapAsync_rejected (env : Env) (h : nat) (mode offset size : N) (w : World) :
  map_succeeds env = false →
  mapAsync env h mode offset size w
  = Thrown (Rejected "mapAsync") (add_call (Call.mapAsync h offset size) w).
Proof.
  intros He. unfold mapAsync, mbind, M_bind, call, modify, gets, id.
  cbn [memory add_call]. rewrite He.
  destruct (memory w !! h); reflexivity.
Qed.

Lemma getMappedRange_whole (h : nat) (size : N) (w : World) (b : GPUBuffer) :
  memory w !! h = Some b →
  buf_mapped b = Some (0, size) →
  size mod 4 = 0 →
  length (buf_data b) = elems size →
  getMappedRange h 0 size w
  = Done (buf_data b) (add_call (Call.getMappedRange h 0 size) w).
Proof.
  intros Hm Hmap H4 Hl.
  unfold getMappedRange, mbind, M_bind, mret, M_ret, call, modify, gets, id.
  cbn [memory add_call]. rewrite Hm. destruct b as [bs bu bd bm].
  cbn [buf_mapped buf_data] in *. subst bm.
  rewrite H4, !N.add_0_l, !N.leb_refl.
  change (elems 0) with 0%nat. rewrite take_drop_all by assumption.
  reflexivity.
Qed.

Lemma exec_copy_whole (src dst : nat) (size : N) (mem : list GPUBuffer)
    (s d : GPUBuffer) :
  mem !! src = Some s → mem !! dst = Some d → src ≠ dst →
  usable s GPUBufferUsage.COPY_SRC = true →
  usable d GPUBufferUsage.COPY_DST = true →
  size mod 4 = 0 → buf_size s = size → buf_size d = size →
  length (buf_data s) = elems size → length (buf_data d) = elems size →
  exec_copy src 0 dst 0 size mem = Some (<[dst := with_data d (buf_data s)]> mem).
Proof.
  intros Hs Hd Hne Hus Hud H4 Hss Hsd Hls Hld.
  unfold exec_copy. rewrite Hs, Hd. cbn [mbind option_bind].
  rewrite bool_decide_eq_true_2 by assumption.
  rewrite Hus, Hud, H4, Hss, Hsd, N.add_0_l, N.leb_refl.
  cbn [andb N.modulo N.eqb N.div_eucl snd].
  change (elems 0) with 0%nat.
  rewrite take_drop_all by assumption.
  rewrite splice_all by congruence. reflexivity.
Qed.

(** ** One run of the script, call by call *)

Section Run.
Variables r c : N.
Variable env : Env.

Local Abbreviation n := (N.to_nat (r * c)).
Local Abbreviation size := (Script.BUFFER_SIZE r c).
Local Abbreviation A := (replicate n (F32.of_Z 1)).
Local Abbreviation B := (replicate n (F32.of_Z 2)).
Local Abbreviation layout :=
  [(0, read_only_storage); (1, read_only_storage); (2, storage)].
Local Abbreviation bindGroup :=
  {| bg_layout := layout; bg_entries := [(0, 0%nat); (1, 1%nat); (2, 2%nat)] |}.
Local Abbreviation computePipeline :=
  {| bindGroupLayouts := [layout]; module := Script.shader r c; entryPoint := "main" |}.
Local Abbreviation commands :=
  [ComputePass [SetPipeline computePipeline; SetBindGroup 0 bindGroup;
                DispatchWorkgroups 1];
   CopyBufferToBuffer 2 0 3 0 size].
Local Abbreviation buffer usage data :=
  {| buf_size := size; buf_usage := usage; buf_data := data; buf_mapped := None |}.
Local Abbreviation storage_dst :=
  (N.lor GPUBufferUsage.STORAGE GPUBufferUsage.COPY_DST).
Local Abbreviation storage_src :=
  (N.lor GPUBufferUsage.STORAGE GPUBufferUsage.COPY_SRC).
Local Abbreviation map_dst :=
  (N.lor GPUBufferUsage.MAP_READ GPUBufferUsage.COPY_DST).
(** The output array after the dispatch of the script. *)
Local Abbreviation sums :=
  (run_lanes (Script.main r c) A B (lane_order env (lanes 64)) (replicate n F32.zero)).

Lemma matrixA_ones : Script.matrixA r c = A.
Proof. apply map_indexed_const. Qed.

Lemma matrixB_twos : Script.matrixB r c = B.
Proof. apply map_indexed_const. Qed.

Lemma size_mod4 : size mod 4 = 0.
Proof. rewrite BUFFER_SIZE_bytes. apply mul4_mod4. Qed.

Lemma elems_size : elems size = n.
Proof. rewrite BUFFER_SIZE_bytes. apply elems_bytes. Qed.

(** The queue runs the dispatch, then the copy of the output. *)
Lemma exec_commands_script (a b z s : list f32) :
  length a = n → length b = n → length z = n → length s = n →
  foldl (exec_buffer env)
        [buffer storage_dst a; buffer storage_dst b; buffer storage_src z;
         buffer map_dst s]
        [commands]
  = [buffer storage_dst a; buffer storage_dst b;
     buffer storage_src
       (run_lanes (Script.main r c) a b (lane_order env (lanes 64)) z);
     buffer map_dst
       (run_lanes (Script.main r c) a b (lane_order env (lanes 64)) z)].
Proof.
  intros Ha Hb Hz Hs.
  cbn [foldl]. unfold exec_buffer.
  cbn [exec_commands exec_command exec_pass N.eqb].
  unfold exec_dispatch.
  cbn [bg_entries resource N.eqb Pos.eqb lookup list_lookup mbind option_bind].
  match goal with |- context [if ?cond then _ else _] => change cond with true end.
  cbn [mbind option_bind insert list_insert with_data buf_size buf_usage buf_data
       buf_mapped module body workgroup_size Script.shader].
  change (1 * 64) with 64.
  erewrite exec_copy_whole; cycle 1.
  - reflexivity.
  - reflexivity.
  - discriminate.
  - reflexivity.
  - reflexivity.
  - apply size_mod4.
  - reflexivity.
  - reflexivity.
  - cbn [buf_data with_data]. rewrite run_lanes_length, elems_size. assumption.
  - cbn [buf_data with_data]. rewrite elems_size. assumption.
  - reflexivity.
Qed.

(** The calls of a run, up to and with the request to map. *)
Local Abbreviation calls_to_mapAsync :=
  [Call.requestAdapter; Call.requestAdapterInfo; Call.requestDevice;
   Call.createShaderModule;
   Call.createBuffer size storage_dst; Call.writeBuffer 0 0 0 (N.of_nat n);
   Call.createBuffer size storage_dst; Call.writeBuffer 1 0 0 (N.of_nat n);
   Call.createBuffer size storage_src; Call.createBuffer size map_dst;
   Call.createBindGroupLayout; Call.createBindGroup; Call.createPipelineLayout;
   Call.createComputePipeline; Call.createCommandEncoder;
   Call.beginComputePass; Call.setPipeline; Call.setBindGroup 0;
   Call.dispatchWorkgroups 1; Call.end_;
   Call.copyBufferToBuffer 2 0 3 0 size; Call.finish; Call.submit;
   Call.mapAsync 3 0 size].

(** What the callback of line 47 has logged by the time [init] is past its
    last [await]. *)
Local Abbreviation info_log :=
  (match info_fulfilled env with
   | WhileDeviceRequested | WhileMapping => [LogAdapterInfo (adapter_info env)]
   | AfterInit | Never => []
   end).

(** Once a device is handed out, the script runs up to the mapping, and to
    its end when the mapping succeeds. *)
Lemma init_acquired :
  acquired env = true →
  ∃ w,
    Script.init r c env empty_world
    = (if map_succeeds env then Done tt w else Thrown (Rejected "mapAsync") w)
    ∧ memory w = [buffer storage_dst A; buffer storage_dst B;
                  buffer storage_src sums; buffer map_dst sums]
    ∧ submitted w = [commands]
    ∧ calls w = calls_to_mapAsync
                ++ (if map_succeeds env
                    then [Call.getMappedRange 3 0 size; Call.unmap 3] else [])
    ∧ console w = info_log
                  ++ (if map_succeeds env then [LogArray sums; LogDevice] else []).
Proof.
  unfold acquired. rewrite !andb_true_iff. intros [[[H1 H2] Hi] H3].
  unfold Script.init, Script.await, requestAdapter, requestAdapterInfo,
    requestDevice.
  rewrite H1, H2, Hi, H3, matrixA_ones, matrixB_twos, !length_replicate.
  pose proof size_mod4 as H4S. pose proof elems_size as HeS.
  pose proof (BUFFER_SIZE_bytes r c) as HS.
  destruct (info_fulfilled env);
    (run;
     erewrite writeBuffer_whole;
       [|reflexivity|reflexivity|rewrite length_replicate; reflexivity
        |cbn [buf_size]; lia|cbn [buf_data]; rewrite !length_replicate; assumption];
     run;
     erewrite writeBuffer_whole;
       [|reflexivity|reflexivity|rewrite length_replicate; reflexivity
        |cbn [buf_size]; lia|cbn [buf_data]; rewrite !length_replicate; assumption];
     run;
     rewrite exec_commands_script by (rewrite ?HeS; apply length_replicate);
     destruct (map_succeeds env) eqn:Hmap;
     [ erewrite mapAsync_whole;
         [|assumption|reflexivity|reflexivity|assumption|reflexivity];
       run;
       erewrite getMappedRange_whole;
         [|reflexivity|reflexivity|assumption
          |cbn [buf_data]; rewrite run_lanes_length, HeS; apply length_replicate];
       run; rewrite HeS;
       eexists; split; [reflexivity|]; repeat split
     | rewrite mapAsync_rejected by assumption;
       run; rewrite HeS;
       eexists; split; [reflexivity|]; repeat split ]).
Qed.

(** Without WebGPU, an adapter, the method [requestAdapterInfo] or a device
    the script stops before it creates anything on the device, after the
    requests it could make. *)
Lemma init_refused :
  acquired env = false →
  ∃ e w,
    Script.init r c env empty_world = Thrown e w
    ∧ memory w = [] ∧ submitted w = []
    ∧ calls w = (if navigator_gpu env
                 then Call.requestAdapter
                      :: (if adapter_available env && requestAdapterInfo_defined env
                          then [Call.requestAdapterInfo; Call.requestDevice]
                          else [])
                 else [])
    ∧ arrays (console w) = [].
Proof.
  unfold acquired. intros H.
  unfold Script.init, Script.await, requestAdapter, requestAdapterInfo,
    requestDevice.
  destruct (navigator_gpu env);
    [|run; eexists _, _; split; [reflexivity|]; repeat split].
  destruct (adapter_available env);
    [|run; eexists _, _; split; [reflexivity|]; repeat split].
  destruct (requestAdapterInfo_defined env);
    [|run; eexists _, _; split; [reflexivity|]; repeat split].
  destruct (device_available env); [discriminate|].
  destruct (info_fulfilled env);
    run; eexists _, _; (split; [reflexivity|]); repeat split.
Qed.

Lemma arrays_app (l1 l2 : list Logged) : arrays (l1 ++ l2) = arrays l1 ++ arrays l2.
Proof.
  induction l1 as [|x l1 IH]; [reflexivity|].
  destruct x; simpl; rewrite IH; reflexivity.
Qed.

Lemma arrays_info_log : arrays info_log = [].
Proof. destruct (info_fulfilled env); reflexivity. Qed.

(** The arrays a run has logged when [init] ends. *)
Lemma arrays_acquired (w : World) :
  console w = info_log
              ++ (if map_succeeds env then [LogArray sums; LogDevice] else []) →
  arrays (console w) = if map_succeeds env then [sums] else [].
Proof.
  intros ->. rewrite arrays_app, arrays_info_log.
  destruct (map_succeeds env); reflexivity.
Qed.

(** The script logs an array exactly when every request is granted, and the
    array is the output of the dispatch. *)
Lemma logged_init (data : Float32Array) :
  logged (Script.init r c env empty_world) = Some data →
  data = sums.
Proof.
  destruct (acquired env) eqn:Hacq.
  - destruct (init_acquired Hacq) as (w & -> & _ & _ & _ & Hc).
    apply arrays_acquired in Hc.
    destruct (map_succeeds env); [|discriminate].
    cbn [logged]. rewrite Hc. cbn. congruence.
  - destruct (init_refused Hacq) as (e & w & -> & _). discriminate.
Qed.

Lemma logged_granted :
  acquired env = true → map_succeeds env = true →
  logged (Script.init r c env empty_world) = Some sums.
Proof.
  intros Hacq H4.
  destruct (init_acquired Hacq) as (w & -> & _ & _ & _ & Hc).
  apply arrays_acquired in Hc.
  rewrite H4 in *. cbn [logged]. rewrite Hc. reflexivity.
Qed.

Lemma sums_length : length sums = n.
Proof. rewrite run_lanes_length. apply length_replicate. Qed.

Lemma elem_of_lane_order (gid x : N) :
  fair env → gid ∈ lane_order env (lanes x) ↔ gid < x.
Proof. intros Hf. rewrite (Hf (lanes x)). apply elem_of_lanes. Qed.

(** The first workgroup's elements hold the sums. *)
Lemma sums_first_group (i : N) :
  fair env → i < 64 → i < r * c →
  at_index sums i = Some (F32.add (F32.of_Z 1) (F32.of_Z 2)).
Proof.
  intros Hf H64 Hn. unfold at_index.
  apply run_lanes_written.
  - apply elem_of_lane_order; assumption.
  - apply lookup_replicate_2. lia.
  - apply lookup_replicate_2. lia.
  - rewrite BUFFER_SIZE_bytes. lia.
  - rewrite length_replicate. lia.
Qed.

(** Every other element is the zero the output buffer was created with. *)
Lemma sums_rest (i : N) :
  fair env → 64 ≤ i → i < r * c → at_index sums i = Some F32.zero.
Proof.
  intros Hf H64 Hn. unfold at_index.
  rewrite run_lanes_untouched.
  - apply lookup_replicate_2. lia.
  - rewrite N2Nat.id, elem_of_lane_order by assumption. lia.
Qed.

(** The world a run ends in, whether or not the mapping succeeds. *)
Lemma world_acquired :
  acquired env = true →
  memory (world_of (Script.init r c env empty_world))
  = [buffer storage_dst A; buffer storage_dst B;
     buffer storage_src sums; buffer map_dst sums]
  ∧ submitted (world_of (Script.init r c env empty_world)) = [commands]
  ∧ calls (world_of (Script.init r c env empty_world))
    = calls_to_mapAsync
      ++ (if map_succeeds env
          then [Call.getMappedRange 3 0 size; Call.unmap 3] else []).
Proof.
  intros Hacq.
  destruct (init_acquired Hacq) as (w & -> & Hm & Hs & Hc & _).
  destruct (map_succeeds env); cbn [world_of]; auto.
Qed.

Lemma world_not_acquired :
  acquired env = false →
  memory (world_of (Script.init r c env empty_world)) = []
  ∧ submitted (world_of (Script.init r c env empty_world)) = []
  ∧ List.filter records_or_submits
      (calls (world_of (Script.init r c env empty_world))) = []
  ∧ List.filter maps_or_unmaps
      (calls (world_of (Script.init r c env empty_world))) = [].
Proof.
  intros Hacq.
  destruct (init_refused Hacq) as (e & w & -> & Hm & Hs & Hc & _).
  cbn [world_of]. rewrite Hc.
  destruct (navigator_gpu env), (adapter_available env),
    (requestAdapterInfo_defined env); repeat split; assumption.
Qed.

(** Past the guard's bound nothing is stored; between the element count and
    the bound a lane reaches the assignment. *)
Lemma main_past_the_arrays (gid : N) (input1 input2 output : list f32) :
  r * c ≤ gid → gid < size → length input1 = n →
  Script.main r c gid input1 input2 output = OutOfBounds gid.
Proof.
  intros Hlo Hhi Hlen. unfold Script.main, at_index.
  apply N.leb_gt in Hhi. rewrite Hhi.
  rewrite (lookup_ge_None_2 input1) by lia. reflexivity.
Qed.

End Run.

(** ** The program: 5000 by 5000 elements *)

(** The script on 1 by 66 elements: 64 sums, then the two zeros the output
    buffer was created with. *)
Example small_run :
  logged (Script.init 1 66 granted empty_world)
  = Some (replicate 64 (F32.of_Z 3) ++ replicate 2 F32.zero).
Proof. vm_compute. reflexivity. Qed.

Lemma one_plus_two : F32.add (F32.of_Z 1) (F32.of_Z 2) = F32.of_Z 3.
Proof. reflexivity. Qed.

Lemma fair_granted : fair granted.
Proof. intros l. apply reverse_Permutation. Qed.

Lemma fair_in_order : fair in_order.
Proof. intros l. reflexivity. Qed.

(** C9: on every successful run of the program the array read back holds
    3.0 at every index below 64 and 0.0 at every index from 64 up to
    25,000,000: one workgroup of 64 lanes ran, and the rest of the zeroed
    output buffer was copied back as it was. *)
Theorem readback_first_group_only (env : Env) (data : Float32Array) :
  fair env →
  logged (init env empty_world) = Some data →
  (∀ i, i < 64 → at_index data i = Some (F32.of_Z 3))
  ∧ (∀ i, 64 ≤ i < 25000000 → at_index data i = Some F32.zero).
Proof.
  intros Hf Hlog. apply logged_init in Hlog. subst data.
  pose proof total_elements as Ht. split.
  - intros i Hi. rewrite <- one_plus_two.
    apply sums_first_group; [assumption|assumption|lia].
  - intros i [Hlo Hhi]. apply sums_rest; [assumption|assumption|lia].
Qed.

Lemma readback_first_group_only_witness :
  ∃ data,
    fair granted
    ∧ logged (init granted empty_world) = Some data
    ∧ (∀ i, i < 64 → at_index data i = Some (F32.of_Z 3))
    ∧ (∀ i, 64 ≤ i < 25000000 → at_index data i = Some F32.zero).
Proof.
  eexists. split; [apply fair_granted|]. split.
  - apply (logged_granted rows cols granted); reflexivity.
  - apply (readback_first_group_only granted).
    + apply fair_granted.
    + apply (logged_granted rows cols granted); reflexivity.
Defined.

(** C10: under the program's dispatch of one workgroup of 64 lanes every
    executed lane has [global_id.x < 64]; the guard's bound [BUFFER_SIZE] is
    100,000,000, so no executed lane takes the early [return]. *)
Theorem guard_never_taken (env : Env) (gid : N) :
  gid ∈ executed_lanes (world_of (init env empty_world)) →
  gid < 64
  ∧ BUFFER_SIZE = 100000000
  ∧ ∀ input1 input2 output, body shader gid input1 input2 output ≠ Returned.
Proof.
  intros Hin.
  assert (Hlt : gid < 64).
  { unfold executed_lanes, grids in Hin.
    destruct (acquired env) eqn:Hacq.
    - destruct (world_acquired rows cols env Hacq) as (_ & Hs & _).
      unfold init in Hin. rewrite Hs in Hin.
      cbn [mjoin list_join fmap list_fmap command_grid pass_grid app module
           workgroup_size Script.shader fst snd] in Hin.
      rewrite app_nil_r in Hin. change (1 * 64) with 64 in Hin.
      apply elem_of_lanes in Hin. assumption.
    - destruct (world_not_acquired rows cols env Hacq) as (_ & Hs & _).
      unfold init in Hin. rewrite Hs in Hin. inversion Hin. }
  split; [assumption|]. split; [apply BUFFER_SIZE_value|].
  intros input1 input2 output.
  cbn [body shader Script.shader]. unfold Script.main.
  fold BUFFER_SIZE. rewrite BUFFER_SIZE_value.
  replace (100000000 <=? gid) with false by (symmetry; apply N.leb_gt; lia).
  repeat case_match; discriminate.
Qed.

Lemma guard_never_taken_witness :
  5 ∈ executed_lanes (world_of (init granted empty_world))
  ∧ 5 < 64
  ∧ BUFFER_SIZE = 100000000
  ∧ ∀ input1 input2 output, body shader 5 input1 input2 output ≠ Returned.
Proof.
  assert (H : 5 ∈ executed_lanes (world_of (init granted empty_world))).
  { unfold executed_lanes, grids, init.
    destruct (world_acquired rows cols granted eq_refl) as (_ & -> & _).
    cbn [mjoin list_join fmap list_fmap command_grid pass_grid app module
         workgroup_size Script.shader fst snd].
    rewrite app_nil_r. apply elem_of_lanes. reflexivity. }
  split; [exact H|]. exact (guard_never_taken granted 5 H).
Defined.

(** C7: the four device buffers the program creates (the two inputs, the
    output and the staging buffer) have one byte length,
    [rows * cols * 4], which is 100,000,000 for 5000 by 5000 elements. *)
Theorem buffers_share_byte_length (env : Env) :
  Forall (λ b, buf_size b = rows * cols * 4 ∧ buf_size b = 100000000)
         (memory (world_of (init env empty_world)))
  ∧ length (memory (world_of (init env empty_world)))
    = (if acquired env then 4 else 0)%nat.
Proof.
  unfold init. destruct (acquired env) eqn:Hacq.
  - destruct (world_acquired rows cols env Hacq) as (-> & _).
    split; [|reflexivity].
    repeat apply Forall_cons_2; try apply Forall_nil_2;
      cbn [buf_size]; fold BUFFER_SIZE; rewrite BUFFER_SIZE_value;
      split; reflexivity.
  - destruct (world_not_acquired rows cols env Hacq) as (-> & _).
    split; [apply Forall_nil_2|reflexivity].
Qed.

(** C6: in a run that gets a device, the calls that record and submit
    commands are, in this order: begin the pass, set the pipeline, set the
    bind group, dispatch, end the pass, record the copy of the output into
    the staging buffer, finish, submit.  One command sequence is submitted,
    with the copy after the pass; so the staging buffer ends with the
    contents of the output buffer, the sums the dispatch wrote included. *)
Theorem recording_order (env : Env) :
  fair env → acquired env = true →
  List.filter records_or_submits (calls (world_of (init env empty_world)))
  = [Call.beginComputePass; Call.setPipeline; Call.setBindGroup 0;
     Call.dispatchWorkgroups 1; Call.end_;
     Call.copyBufferToBuffer 2 0 3 0 BUFFER_SIZE; Call.finish; Call.submit]
  ∧ (∃ p g,
      submitted (world_of (init env empty_world))
      = [[ComputePass [SetPipeline p; SetBindGroup 0 g; DispatchWorkgroups 1];
          CopyBufferToBuffer 2 0 3 0 BUFFER_SIZE]])
  ∧ (∃ output staging,
      memory (world_of (init env empty_world)) !! 2%nat = Some output
      ∧ memory (world_of (init env empty_world)) !! 3%nat = Some staging
      ∧ buf_data staging = buf_data output
      ∧ at_index (buf_data staging) 0 = Some (F32.of_Z 3)).
Proof.
  intros Hf Hacq. unfold init.
  destruct (world_acquired rows cols env Hacq) as (-> & -> & ->).
  split; [|split].
  - destruct (map_succeeds env); reflexivity.
  - eexists _, _. reflexivity.
  - eexists _, _. split; [reflexivity|]. split; [reflexivity|].
    split; [reflexivity|]. cbn [buf_data].
    rewrite <- one_plus_two. apply sums_first_group; [assumption|reflexivity|reflexivity].
Qed.

Lemma recording_order_witness :
  fair granted
  ∧ acquired granted = true
  ∧ List.filter records_or_submits (calls (world_of (init granted empty_world)))
    = [Call.beginComputePass; Call.setPipeline; Call.setBindGroup 0;
       Call.dispatchWorkgroups 1; Call.end_;
       Call.copyBufferToBuffer 2 0 3 0 BUFFER_SIZE; Call.finish; Call.submit].
Proof.
  split; [apply fair_granted|]. split; [reflexivity|].
  apply (recording_order granted fair_granted eq_refl).
Defined.

(** C8: two successful runs of the program log the same array, element for
    element, whatever the order in which the device ran the lanes. *)
Theorem runs_agree (env1 env2 : Env) (data1 data2 : Float32Array) :
  fair env1 → fair env2 →
  logged (init env1 empty_world) = Some data1 →
  logged (init env2 empty_world) = Some data2 →
  data1 = data2.
Proof.
  intros Hf1 Hf2 H1 H2.
  apply logged_init in H1, H2. subst data1 data2.
  apply list_eq. intros i.
  destruct (decide (i < N.to_nat (rows * cols))%nat) as [Hi|Hi].
  - pose proof (Nat2N.id i) as Hid.
    destruct (decide (i < 64)%nat) as [H64|H64].
    + pose proof (sums_first_group rows cols env1 (N.of_nat i) Hf1) as E1.
      pose proof (sums_first_group rows cols env2 (N.of_nat i) Hf2) as E2.
      unfold at_index in E1, E2. rewrite Hid in E1, E2.
      rewrite E1, E2 by lia. reflexivity.
    + pose proof (sums_rest rows cols env1 (N.of_nat i) Hf1) as E1.
      pose proof (sums_rest rows cols env2 (N.of_nat i) Hf2) as E2.
      unfold at_index in E1, E2. rewrite Hid in E1, E2.
      rewrite E1, E2 by lia. reflexivity.
  - rewrite !lookup_ge_None_2; [reflexivity| |].
    + rewrite sums_length. lia.
    + rewrite sums_length. lia.
Qed.

Lemma runs_agree_witness :
  ∃ data1 data2,
    logged (init granted empty_world) = Some data1
    ∧ logged (init in_order empty_world) = Some data2
    ∧ data1 = data2.
Proof.
  eexists _, _. split; [|split].
  - apply (logged_granted rows cols granted); reflexivity.
  - apply (logged_granted rows cols in_order); reflexivity.
  - apply (runs_agree granted in_order).
    + apply fair_granted.
    + apply fair_in_order.
    + apply (logged_granted rows cols granted); reflexivity.
    + apply (logged_granted rows cols in_order); reflexivity.
Defined.

(** C1 (the program against the claim): element 64 of the logged array is
    not the sum of the inputs.  Both matrices have an element 64, their sum
    is 3.0, and the array read back holds 0.0 there. *)
Theorem element_64_not_summed (env : Env) (data : Float32Array) :
  fair env →
  logged (init env empty_world) = Some data →
  ∃ a b,
    at_index matrixA 64 = Some a ∧ at_index matrixB 64 = Some b
    ∧ F32.add a b = F32.of_Z 3
    ∧ at_index data 64 = Some F32.zero
    ∧ at_index data 64 ≠ Some (F32.add a b).
Proof.
  intros Hf Hlog. apply logged_init in Hlog. subst data.
  exists (F32.of_Z 1), (F32.of_Z 2).
  assert (H0 : at_index
                 (run_lanes (Script.main rows cols)
                    (replicate (N.to_nat (rows * cols)) (F32.of_Z 1))
                    (replicate (N.to_nat (rows * cols)) (F32.of_Z 2))
                    (lane_order env (lanes 64))
                    (replicate (N.to_nat (rows * cols)) F32.zero)) 64
               = Some F32.zero).
  { apply sums_rest; [assumption|reflexivity|reflexivity]. }
  pose proof total_elements as Ht.
  split; [|split; [|split; [|split]]].
  - unfold matrixA. rewrite matrixA_ones. apply lookup_replicate_2. lia.
  - unfold matrixB. rewrite matrixB_twos. apply lookup_replicate_2. lia.
  - reflexivity.
  - exact H0.
  - rewrite H0. discriminate.
Qed.

Lemma element_64_not_summed_witness :
  ∃ data a b,
    logged (init granted empty_world) = Some data
    ∧ at_index matrixA 64 = Some a ∧ at_index matrixB 64 = Some b
    ∧ F32.add a b = F32.of_Z 3
    ∧ at_index data 64 = Some F32.zero
    ∧ at_index data 64 ≠ Some (F32.add a b).
Proof.
  destruct (element_64_not_summed granted _ fair_granted
              (logged_granted rows cols granted eq_refl eq_refl))
    as (a & b & H).
  eexists _, a, b. split; [|exact H].
  apply (logged_granted rows cols granted); reflexivity.
Defined.

(** C2 (the program against the claim): the program dispatches one
    workgroup of 64 lanes, whatever the size; 64 lanes do not cover the
    25,000,000 elements, for which 390,625 workgroups are needed. *)
Theorem one_workgroup_dispatched (env : Env) :
  acquired env = true →
  grids (world_of (init env empty_world)) = [(1, 64)]
  ∧ 1 * 64 < rows * cols
  ∧ (rows * cols + 63) / 64 = 390625.
Proof.
  intros Hacq. unfold grids, init.
  destruct (world_acquired rows cols env Hacq) as (_ & -> & _).
  repeat split.
Qed.

Lemma one_workgroup_dispatched_witness :
  acquired granted = true
  ∧ grids (world_of (init granted empty_world)) = [(1, 64)]
  ∧ 1 * 64 < rows * cols
  ∧ (rows * cols + 63) / 64 = 390625.
Proof.
  split; [reflexivity|]. apply (one_workgroup_dispatched granted eq_refl).
Defined.






(** C4 (the program against the claim): a successful run returns an array
    of which a proper part holds sums: element 0 is the sum of the inputs,
    the last element, 24,999,999, is not. *)
Theorem only_a_prefix_is_summed (env : Env) (data : Float32Array) :
  fair env →
  logged (init env empty_world) = Some data →
  length data = N.to_nat (rows * cols)
  ∧ at_index data 0 = Some (F32.add (F32.of_Z 1) (F32.of_Z 2))
  ∧ at_index matrixA 24999999 = Some (F32.of_Z 1)
  ∧ at_index matrixB 24999999 = Some (F32.of_Z 2)
  ∧ at_index data 24999999 ≠ Some (F32.add (F32.of_Z 1) (F32.of_Z 2)).
Proof.
  intros Hf Hlog. apply logged_init in Hlog. subst data.
  pose proof total_elements as Ht.
  split; [apply sums_length|].
  split; [apply sums_first_group; [assumption|reflexivity|reflexivity]|].
  split; [unfold matrixA; rewrite matrixA_ones; apply lookup_replicate_2; lia|].
  split; [unfold matrixB; rewrite matrixB_twos; apply lookup_replicate_2; lia|].
  rewrite sums_rest; [discriminate|assumption|discriminate|reflexivity].
Qed.

Lemma only_a_prefix_is_summed_witness :
  ∃ data,
    logged (init granted empty_world) = Some data
    ∧ at_index data 0 = Some (F32.add (F32.of_Z 1) (F32.of_Z 2))
    ∧ at_index data 24999999 ≠ Some (F32.add (F32.of_Z 1) (F32.of_Z 2)).
Proof.
  eexists. split.
  - apply (logged_granted rows cols granted); reflexivity.
  - destruct (only_a_prefix_is_summed granted _ fair_granted
                (logged_granted rows cols granted eq_refl eq_refl))
      as (_ & H0 & _ & _ & Hlast).
    split; assumption.
Defined.


(** * More of the script *)

(** ** The shader on any arrays *)

Section AnyArrays.
Variables r c : N.
Variables input1 input2 : list f32.

Local Abbreviation kernel := (Script.main r c).

(** The entry point looks at the output array only to see whether its index
    is inside it. *)
Lemma main_depends_on_length (gid : N) (out1 out2 : list f32) :
  length out1 = length out2 →
  kernel gid input1 input2 out1 = kernel gid input1 input2 out2.
Proof.
  intros Hlen. unfold Script.main, at_index.
  destruct (_ <=? gid); [reflexivity|].
  destruct (input1 !! N.to_nat gid); [|reflexivity].
  destruct (input2 !! N.to_nat gid); [|reflexivity].
  destruct (out1 !! N.to_nat gid) eqn:E1, (out2 !! N.to_nat gid) eqn:E2;
    try reflexivity.
  - apply lookup_lt_Some in E1. apply lookup_ge_None in E2. lia.
  - apply lookup_lt_Some in E2. apply lookup_ge_None in E1. lia.
Qed.

Lemma run_lane_again (out : list f32) (g1 g2 : N) :
  kernel g2 input1 input2 (run_lane kernel input1 input2 out g1)
  = kernel g2 input1 input2 out.
Proof. apply main_depends_on_length, run_lane_length. Qed.

(** A lane stores at its own index. *)
Lemma main_stores_at_own_index (gid i : N) (v : f32) (out : list f32) :
  kernel gid input1 input2 out = Stored i v → i = gid.
Proof.
  unfold Script.main. intros H.
  repeat case_match; congruence.
Qed.

(** Two lanes can run in either order. *)
Lemma run_lane_commute (out : list f32) (g1 g2 : N) :
  run_lane kernel input1 input2 (run_lane kernel input1 input2 out g1) g2
  = run_lane kernel input1 input2 (run_lane kernel input1 input2 out g2) g1.
Proof.
  destruct (decide (g1 = g2)) as [->|Hne]; [reflexivity|].
  unfold run_lane at 1 3. rewrite !run_lane_again.
  unfold run_lane.
  destruct (kernel g1 input1 input2 out) as [|i1 v1|] eqn:E1,
           (kernel g2 input1 input2 out) as [|i2 v2|] eqn:E2;
    try reflexivity.
  apply main_stores_at_own_index in E1, E2. subst i1 i2.
  apply list_insert_insert_ne. lia.
Qed.

Lemma run_lanes_permutation (o1 o2 : list N) (out : list f32) :
  o1 ≡ₚ o2 →
  run_lanes kernel input1 input2 o1 out = run_lanes kernel input1 input2 o2 out.
Proof.
  intros Hp. unfold run_lanes. revert out.
  induction Hp as [|x l1 l2 _ IH|x y l|l1 l2 l3 _ IH1 _ IH2]; intros out; simpl.
  - reflexivity.
  - apply IH.
  - rewrite run_lane_commute. reflexivity.
  - rewrite IH1. apply IH2.
Qed.

End AnyArrays.

(** X1: the output of a dispatch does not depend on the order in which the
    device runs its lanes: for arrays of [r * c] elements and lanes inside
    them, two orders of the same lanes leave the same output array. *)
Theorem lanes_order_irrelevant (r c : N) (input1 input2 output : list f32)
    (order1 order2 : list N) :
  length input1 = N.to_nat (r * c) → length input2 = N.to_nat (r * c) →
  length output = N.to_nat (r * c) →
  (∀ gid, gid ∈ order1 → gid < r * c) →
  order1 ≡ₚ order2 →
  run_lanes (Script.main r c) input1 input2 order1 output
  = run_lanes (Script.main r c) input1 input2 order2 output.
Proof.
  intros _ _ _ _ Hp. apply run_lanes_permutation. assumption.
Qed.

Lemma lanes_order_irrelevant_witness :
  run_lanes (Script.main 1 2) [F32.of_Z 1; F32.of_Z 5] [F32.of_Z 2; F32.of_Z 7]
            [0; 1] [F32.zero; F32.zero]
  = run_lanes (Script.main 1 2) [F32.of_Z 1; F32.of_Z 5] [F32.of_Z 2; F32.of_Z 7]
              [1; 0] [F32.zero; F32.zero].
Proof.
  apply lanes_order_irrelevant.
  - reflexivity.
  - reflexivity.
  - reflexivity.
  - intros gid Hin. apply elem_of_cons in Hin as [->|Hin]; [reflexivity|].
    apply elem_of_cons in Hin as [->|Hin]; [reflexivity|]. inversion Hin.
  - apply perm_swap.
Defined.

(** X2: a dispatch of [k] lanes over arrays of [r * c] elements, [k] at
    most [r * c], stores the sum of the inputs at every index below [k] and
    leaves every other element of the output as it was. *)
Theorem dispatch_sums_covered_prefix (r c k : N) (input1 input2 output : list f32)
    (order : list N) :
  length input1 = N.to_nat (r * c) → length input2 = N.to_nat (r * c) →
  length output = N.to_nat (r * c) →
  k ≤ r * c → order ≡ₚ lanes k →
  (∀ i x y, i < k → at_index input1 i = Some x → at_index input2 i = Some y →
     at_index (run_lanes (Script.main r c) input1 input2 order output) i
     = Some (F32.add x y))
  ∧ (∀ i, k ≤ i →
     at_index (run_lanes (Script.main r c) input1 input2 order output) i
     = at_index output i).
Proof.
  intros H1 H2 Ho Hk Hp. split.
  - intros i x y Hi Hx Hy. unfold at_index.
    apply run_lanes_written; try assumption.
    + rewrite Hp. apply elem_of_lanes. assumption.
    + rewrite BUFFER_SIZE_bytes. lia.
    + lia.
  - intros i Hi. unfold at_index.
    apply run_lanes_untouched.
    rewrite Hp, N2Nat.id, elem_of_lanes. lia.
Qed.

Lemma dispatch_sums_covered_prefix_witness :
  at_index (run_lanes (Script.main 1 3)
              [F32.of_Z 1; F32.of_Z 5; F32.of_Z 9]
              [F32.of_Z 2; F32.of_Z 7; F32.of_Z 4]
              [1; 0] [F32.zero; F32.zero; F32.of_Z 8]) 1
  = Some (F32.add (F32.of_Z 5) (F32.of_Z 7))
  ∧ at_index (run_lanes (Script.main 1 3)
              [F32.of_Z 1; F32.of_Z 5; F32.of_Z 9]
              [F32.of_Z 2; F32.of_Z 7; F32.of_Z 4]
              [1; 0] [F32.zero; F32.zero; F32.of_Z 8]) 2
    = Some (F32.of_Z 8).
Proof.
  destruct (dispatch_sums_covered_prefix 1 3 2
              [F32.of_Z 1; F32.of_Z 5; F32.of_Z 9]
              [F32.of_Z 2; F32.of_Z 7; F32.of_Z 4]
              [F32.zero; F32.zero; F32.of_Z 8] [1; 0]
              eq_refl eq_refl eq_refl) as [Hsum Hrest].
  - discriminate.
  - apply perm_swap.
  - split.
    + apply Hsum; reflexivity.
    + apply (Hrest 2). discriminate.
Defined.

(** X3: with one lane for every element the shader adds the matrices: the
    output array becomes the elementwise sum of the two inputs, whatever it
    held before. *)
Theorem one_lane_per_element_adds (r c : N) (input1 input2 output : list f32)
    (order : list N) :
  length input1 = N.to_nat (r * c) → length input2 = N.to_nat (r * c) →
  length output = N.to_nat (r * c) →
  order ≡ₚ lanes (r * c) →
  run_lanes (Script.main r c) input1 input2 order output
  = zip_with F32.add input1 input2.
Proof.
  intros H1 H2 Ho Hp.
  destruct (dispatch_sums_covered_prefix r c (r * c) input1 input2 output order
              H1 H2 Ho (N.le_refl _) Hp) as [Hsum _].
  apply list_eq. intros i. rewrite lookup_zip_with.
  destruct (decide (i < N.to_nat (r * c))%nat) as [Hi|Hi].
  - destruct (lookup_lt_is_Some_2 input1 i) as [x Hx]; [lia|].
    destruct (lookup_lt_is_Some_2 input2 i) as [y Hy]; [lia|].
    specialize (Hsum (N.of_nat i) x y). unfold at_index in Hsum.
    rewrite Nat2N.id in Hsum. rewrite Hsum, Hx, Hy by (assumption || lia).
    reflexivity.
  - rewrite (lookup_ge_None_2 input1) by lia.
    apply lookup_ge_None_2. rewrite run_lanes_length. lia.
Qed.

Lemma one_lane_per_element_adds_witness :
  run_lanes (Script.main 1 2) [F32.of_Z 1; F32.of_Z 5] [F32.of_Z 2; F32.of_Z 7]
            [1; 0] [F32.of_Z 9; F32.zero]
  = zip_with F32.add [F32.of_Z 1; F32.of_Z 5] [F32.of_Z 2; F32.of_Z 7].
Proof.
  apply (one_lane_per_element_adds 1 2).
  - reflexivity.
  - reflexivity.
  - reflexivity.
  - apply perm_swap.
Defined.

(** ** The script at other sizes *)

(** X4: whatever [rows] and [cols] are set to, as long as there are at
    least 64 elements and the buffers stay within the binding limit, a
    successful run logs 64 times 3.0 followed by zeros. *)
Theorem first_group_only_at_any_size (r c : N) (env : Env) (data : Float32Array) :
  fair env → 64 ≤ r * c →
  Script.BUFFER_SIZE r c ≤ maxStorageBufferBindingSize →
  logged (Script.init r c env empty_world) = Some data →
  data = replicate 64 (F32.of_Z 3) ++ replicate (N.to_nat (r * c) - 64) F32.zero.
Proof.
  intros Hf H64 _ Hlog. apply logged_init in Hlog. subst data.
  apply list_eq. intros i.
  pose proof (Nat2N.id i) as Hid.
  destruct (decide (i < 64)%nat) as [Hlt|Hge].
  - rewrite lookup_app_l by (rewrite length_replicate; assumption).
    rewrite lookup_replicate_2 by assumption.
    pose proof (sums_first_group r c env (N.of_nat i) Hf) as E.
    unfold at_index in E. rewrite Hid, one_plus_two in E. apply E; lia.
  - rewrite lookup_app_r by (rewrite length_replicate; lia).
    rewrite length_replicate.
    destruct (decide (i < N.to_nat (r * c))%nat) as [Hi|Hi].
    + rewrite lookup_replicate_2 by lia.
      pose proof (sums_rest r c env (N.of_nat i) Hf) as E.
      unfold at_index in E. rewrite Hid in E. apply E; lia.
    + rewrite !lookup_ge_None_2; [reflexivity| |].
      * rewrite length_replicate. lia.
      * rewrite sums_length. lia.
Qed.

Lemma first_group_only_at_any_size_witness :
  logged (Script.init 5 13 granted empty_world)
  = Some (replicate 64 (F32.of_Z 3) ++ replicate (N.to_nat (5 * 13) - 64) F32.zero).
Proof.
  assert (H : ∃ data, logged (Script.init 5 13 granted empty_world) = Some data)
    by (eexists; apply (logged_granted 5 13 granted); reflexivity).
  destruct H as [data H]. rewrite H. f_equal.
  apply (first_group_only_at_any_size 5 13 granted data).
  - apply fair_granted.
  - discriminate.
  - discriminate.
  - exact H.
Defined.

(** ** The device after a run *)

(** X5: in every run that gets a device the two input buffers end with the
    matrices that were uploaded: the upload is complete, and neither the
    dispatch nor the copy writes them. *)
Theorem inputs_uploaded_and_kept (env : Env) :
  acquired env = true →
  ∃ b1 b2,
    memory (world_of (init env empty_world)) !! 0%nat = Some b1
    ∧ buf_data b1 = matrixA
    ∧ memory (world_of (init env empty_world)) !! 1%nat = Some b2
    ∧ buf_data b2 = matrixB.
Proof.
  intros Hacq. unfold init, matrixA, matrixB.
  destruct (world_acquired rows cols env Hacq) as (-> & _).
  rewrite matrixA_ones, matrixB_twos.
  eexists _, _. repeat split.
Qed.

Lemma inputs_uploaded_and_kept_witness :
  acquired granted = true
  ∧ ∃ b1 b2,
      memory (world_of (init granted empty_world)) !! 0%nat = Some b1
      ∧ buf_data b1 = matrixA
      ∧ memory (world_of (init granted empty_world)) !! 1%nat = Some b2
      ∧ buf_data b2 = matrixB.
Proof.
  split; [reflexivity|]. apply (inputs_uploaded_and_kept granted eq_refl).
Defined.

(** X6: a successful run logs exactly one array, and that array is what
    the output buffer and the staging buffer hold on the device: the copy,
    the mapping and the slice lose and change nothing. *)
Theorem logged_is_device_output (env : Env) (data : Float32Array) :
  logged (init env empty_world) = Some data →
  arrays (console (world_of (init env empty_world))) = [data]
  ∧ ∃ output staging,
      memory (world_of (init env empty_world)) !! 2%nat = Some output
      ∧ memory (world_of (init env empty_world)) !! 3%nat = Some staging
      ∧ buf_data output = data ∧ buf_data staging = data.
Proof.
  intros Hlog. pose proof Hlog as Hdata. apply logged_init in Hdata. subst data.
  unfold init in *.
  destruct (acquired env) eqn:Hacq.
  2:{ destruct (init_refused rows cols env Hacq) as (e & w & Heq & _).
      rewrite Heq in Hlog. discriminate. }
  destruct (init_acquired rows cols env Hacq) as (w & Heq & Hm & _ & _ & Hc).
  apply arrays_acquired in Hc. rewrite Heq in *.
  destruct (map_succeeds env); [|discriminate].
  cbn [world_of]. rewrite Hm, Hc. split; [reflexivity|].
  eexists _, _. repeat split.
Qed.

Lemma logged_is_device_output_witness :
  ∃ data,
    logged (init granted empty_world) = Some data
    ∧ arrays (console (world_of (init granted empty_world))) = [data].
Proof.
  eexists. split.
  - apply (logged_granted rows cols granted); reflexivity.
  - apply (logged_is_device_output granted).
    apply (logged_granted rows cols granted); reflexivity.
Defined.

(** X7: the staging buffer is mapped, read and unmapped in that order, once
    each, when the mapping succeeds; a rejected mapping is followed by no
    read and no unmap; a run without a device maps nothing.  Whatever
    happens, no buffer is left mapped. *)
Theorem mapping_protocol (env : Env) :
  Forall (λ b, buf_mapped b = None) (memory (world_of (init env empty_world)))
  ∧ List.filter maps_or_unmaps (calls (world_of (init env empty_world)))
    = if acquired env
      then Call.mapAsync 3 0 BUFFER_SIZE
           :: (if map_succeeds env
               then [Call.getMappedRange 3 0 BUFFER_SIZE; Call.unmap 3] else [])
      else [].
Proof.
  unfold init. destruct (acquired env) eqn:Hacq.
  - destruct (world_acquired rows cols env Hacq) as (-> & _ & ->).
    split.
    + repeat apply Forall_cons_2; try apply Forall_nil_2; reflexivity.
    + destruct (map_succeeds env); reflexivity.
  - destruct (world_not_acquired rows cols env Hacq) as (-> & _ & _ & ->).
    split; [apply Forall_nil_2|reflexivity].
Qed.

(** X8: when the mapping is rejected, the script fails with that rejection
    after the commands were submitted: one command sequence has gone to the
    queue, and neither the array nor the device is logged. *)
Theorem rejected_mapping_discards_result (env : Env) :
  acquired env = true → map_succeeds env = false →
  (∃ w, init env empty_world = Thrown (Rejected "mapAsync") w)
  ∧ arrays (console (world_of (init env empty_world))) = []
  ∧ (LogDevice ∉ console (world_of (init env empty_world)))
  ∧ (Call.submit ∈ calls (world_of (init env empty_world)))
  ∧ length (submitted (world_of (init env empty_world))) = 1%nat.
Proof.
  intros Hacq Hmap. unfold init.
  destruct (init_acquired rows cols env Hacq) as (w & Heq & _ & Hs & Hcalls & Hc).
  pose proof (arrays_acquired rows cols env w Hc) as Ha.
  rewrite Heq, Hmap in *. cbn [world_of].
  split; [eexists; reflexivity|].
  split; [exact Ha|].
  split; [|split].
  - rewrite Hc, app_nil_r. intros Hin.
    destruct (info_fulfilled env);
      repeat (apply elem_of_cons in Hin as [Hin|Hin]; [discriminate|]);
      inversion Hin.
  - rewrite Hcalls, app_nil_r. apply list_elem_of_In.
    cbn [In]. tauto.
  - rewrite Hs. reflexivity.
Qed.

Lemma rejected_mapping_discards_result_witness :
  acquired map_rejected = true
  ∧ (∃ w, init map_rejected empty_world = Thrown (Rejected "mapAsync") w)
  ∧ arrays (console (world_of (init map_rejected empty_world))) = [].
Proof.
  split; [reflexivity|].
  destruct (rejected_mapping_discards_result map_rejected eq_refl eq_refl)
    as (Hthrown & Hconsole & _).
  split; assumption.
Defined.

(** ** The page *)

(** The callback of line 47 logs no array. *)
Lemma show_adapter_info_arrays (r c : N) (info : GPUAdapterInfo) (w : World) :
  arrays (console (world_of (Script.show_adapter_info info w)))
  = arrays (console w).
Proof.
  cbv [Script.show_adapter_info console_log document_write mbind M_bind modify
       world_of add_console add_document console].
  rewrite arrays_app. cbn [arrays]. apply app_nil_r.
Qed.

Lemma script_arrays (env : Env) :
  arrays (console (page_world (script env)))
  = arrays (console (world_of (init env empty_world))).
Proof.
  unfold script. cbn [page_world].
  destruct (_ && _); [|reflexivity].
  apply (show_adapter_info_arrays rows cols).
Qed.

(** X9: the script ends in one of two ways, and never in both or neither.
    When it gets a device and the mapping succeeds it logs one array, of
    [rows * cols] elements, and alerts nothing; otherwise it alerts
    exactly one error and logs no array. *)
Theorem script_logs_or_alerts (env : Env) :
  if acquired env && map_succeeds env
  then alerts (script env) = []
       ∧ ∃ data, arrays (console (page_world (script env))) = [data]
                 ∧ length data = N.to_nat (rows * cols)
  else arrays (console (page_world (script env))) = []
       ∧ ∃ e, alerts (script env) = [e].
Proof.
  rewrite script_arrays. unfold script, init. cbn [alerts].
  destruct (acquired env) eqn:Hacq; cbn [andb].
  - destruct (init_acquired rows cols env Hacq) as (w & -> & _ & _ & _ & Hc).
    apply arrays_acquired in Hc.
    destruct (map_succeeds env); cbn [world_of]; rewrite Hc.
    + split; [reflexivity|]. eexists. split; [reflexivity|]. apply sums_length.
    + split; [reflexivity|]. eexists. reflexivity.
  - destruct (init_refused rows cols env Hacq) as (e & w & -> & _ & _ & _ & Hc).
    cbn [world_of]. split; [exact Hc|]. eexists. reflexivity.
Qed.

(** X10: the script asks for an adapter only when the browser has WebGPU,
    and for the adapter's information and then for a device only when it
    has an adapter with the method [requestAdapterInfo].  When it gets no
    device it has made these requests and no other call, and has created
    no buffer and no command; when it gets one, the shader module is the
    next thing it creates. *)
Theorem requests_before_any_work (env : Env) :
  if acquired env
  then take 4 (calls (world_of (init env empty_world)))
       = [Call.requestAdapter; Call.requestAdapterInfo; Call.requestDevice;
          Call.createShaderModule]
  else calls (world_of (init env empty_world))
       = (if navigator_gpu env
          then Call.requestAdapter
               :: (if adapter_available env && requestAdapterInfo_defined env
                   then [Call.requestAdapterInfo; Call.requestDevice] else [])
          else [])
       ∧ memory (world_of (init env empty_world)) = []
       ∧ submitted (world_of (init env empty_world)) = [].
Proof.
  unfold init. destruct (acquired env) eqn:Hacq.
  - destruct (world_acquired rows cols env Hacq) as (_ & _ & ->). reflexivity.
  - destruct (init_refused rows cols env Hacq) as (e & w & -> & Hm & Hs & Hc & _).
    cbn [world_of]. auto.
Qed.
